(** * setup.py of attacksplitnn: the requirements reader and the setup call

    A shallow embedding of [src/setup.py].  The script has one function,
    [read_requirements], one module-level list, [console_scripts], and one
    call of [setuptools.setup].

    Python values are modelled as the script uses them:
    - a [str] is a list of Unicode code points ([N]);
    - the file system, the table of open file objects and the module's
      globals are finite maps (stdpp's [gmap]);
    - a statement that may raise is a function from the world to an outcome
      ([Ok] or [Raise]) and the world after it. *)

From Stdlib Require Import NArith Ascii String List Lia.
From stdpp Require Import gmap strings list fin_maps.

Local Open Scope N_scope.

(** ** Text: Python [str] as code points *)

Module Text.

Abbreviation str := (list N).

Definition LF : N := 10.
Definition CR : N := 13.
Definition SPACE : N := 32.
Definition TAB : N := 9.

(** A literal of the script or of an example, as code points. *)
Definition codes (s : string) : str :=
  List.map N_of_ascii (list_ascii_of_string s).

(** [str.rstrip()] without argument removes the characters for which
    CPython's [Py_UNICODE_ISSPACE] holds (the table of
    [_PyUnicode_IsWhitespace]). *)
Definition isspace (c : N) : bool :=
  ((9 <=? c) && (c <=? 13))          (* \t \n \v \f \r *)
  || ((28 <=? c) && (c <=? 32))      (* FS GS RS US and the space *)
  || (c =? 133) || (c =? 160)        (* NEL, no-break space *)
  || (c =? 5760)                     (* U+1680 *)
  || ((8192 <=? c) && (c <=? 8202))  (* U+2000 .. U+200A *)
  || (c =? 8232) || (c =? 8233)      (* U+2028, U+2029 *)
  || (c =? 8239) || (c =? 8287)      (* U+202F, U+205F *)
  || (c =? 12288).                   (* U+3000 *)

Fixpoint drop_spaces (s : str) : str :=
  match s with
  | [] => []
  | c :: s' => if isspace c then drop_spaces s' else s
  end.

(** [s.rstrip()]: scan from the right end while the character is
    whitespace, keep what is left of it. *)
Definition rstrip (s : str) : str := rev (drop_spaces (rev s)).

(** Text mode with [newline=None] (the default of [open(path, 'r')]):
    the endings CR LF and a lone CR are handed over as LF. *)
Fixpoint translate_newlines (s : str) : str :=
  match s with
  | [] => []
  | c :: s' =>
      if c =? CR then
        LF :: match s' with
              | d :: s'' => if d =? LF then translate_newlines s''
                            else translate_newlines s'
              | [] => []
              end
      else c :: translate_newlines s'
  end.

(** The lines a file object yields when iterated: each one up to and
    including its LF; the last one may lack it. *)
Fixpoint readlines (s : str) : list str :=
  match s with
  | [] => []
  | c :: s' =>
      if c =? LF then [c] :: readlines s'
      else match readlines s' with
           | [] => [[c]]
           | l :: ls => (c :: l) :: ls
           end
  end.

(** Whether a text ends in the middle of a line. *)
Definition unterminated (s : str) : bool :=
  match last s with
  | Some c => negb (c =? LF)
  | None => false
  end.

(** A run of whitespace. *)
Definition blank (ws : str) : Prop := Forall (fun c => isspace c = true) ws.

(** Empty, or ending in a character that is not whitespace. *)
Definition ends_clean (s : str) : Prop :=
  s = [] \/ exists r c, s = r ++ [c] /\ isspace c = false.

(** The lines of a file whose decoded content is [raw]. *)
Definition file_lines (raw : str) : list str :=
  readlines (translate_newlines raw).

End Text.
Export Text.

(** ** The world of the script: files, open file objects, globals *)

Module Py.

(** The exceptions the script can meet.  The first three are raised by
    [open] and are subclasses of [OSError]; [ReadError] stands for an error
    raised while the file is read ([OSError] or [UnicodeDecodeError]). *)
Inductive exn : Type :=
  | FileNotFoundError (path : string)
  | IsADirectoryError (path : string)
  | PermissionError (path : string)
  | ReadError
  | ValueError    (* an operation on a closed file *)
  | NameError (name : string).

Inductive outcome (A : Type) : Type :=
  | Ok (a : A)
  | Raise (e : exn).
Arguments Ok {A} a.
Arguments Raise {A} e.

(** A regular file: its decoded content, whether the process may read it,
    and [fault]: with [Some k] the read that follows the [k]-th line fails
    (a file of fewer lines is read to its end), with [None] no read fails. *)
Record file : Type := File {
  text : str;
  readable : bool;
  fault : option nat
}.

Inductive node : Type :=
  | Regular (f : file)
  | Directory.

(** An open file object: the lines not yet handed over and the lines left
    before a read error. *)
Record handle : Type := Handle {
  pending : list str;
  countdown : option nat
}.

Inductive value : Type :=
  | VModule (name : string)
  | VFunction (name : string)
  | VList (items : list string).

Record World : Type := MkWorld {
  fs : gmap string node;
  fds : gmap nat handle;
  globals : gmap string value
}.

(** Statements: a world in, an outcome and a world out. *)
Definition M (A : Type) : Type := World -> outcome A * World.

Definition ret {A} (a : A) : M A := fun w => (Ok a, w).
Definition raise {A} (e : exn) : M A := fun w => (Raise e, w).
Definition bind {A B} (m : M A) (k : A -> M B) : M B :=
  fun w => match m w with
           | (Ok a, w') => k a w'
           | (Raise e, w') => (Raise e, w')
           end.

(** [try: m finally: cleanup]: the cleanup runs on both ways out, then the
    outcome of [m] goes on (an exception of the cleanup replaces it). *)
Definition finally {A} (m : M A) (cleanup : M unit) : M A :=
  fun w => match m w with
           | (r, w') => match cleanup w' with
                        | (Ok _, w'') => (r, w'')
                        | (Raise e, w'') => (Raise e, w'')
                        end
           end.

Declare Scope py_scope.
Delimit Scope py_scope with py.
Notation "x <- m ;; k" := (bind m (fun x => k))
  (at level 100, m at next level, right associativity) : py_scope.
Notation "m ;;; k" := (bind m (fun _ => k))
  (at level 100, right associativity) : py_scope.
Local Open Scope py_scope.

(** [posixpath.join(a, b)]. *)
Definition startswith_sep (p : string) : bool :=
  match p with
  | String c _ => Ascii.eqb c "/"
  | EmptyString => false
  end.

Fixpoint endswith_sep (p : string) : bool :=
  match p with
  | EmptyString => false
  | String c EmptyString => Ascii.eqb c "/"
  | String _ p' => endswith_sep p'
  end.

Definition path_join (a b : string) : string :=
  if startswith_sep b then b
  else if (String.eqb a "" || endswith_sep a)%bool then (a ++ b)%string
  else (a ++ "/" ++ b)%string.

(** The exceptions [open] raises: the subclasses of [OSError]. *)
Definition os_error (e : exn) : bool :=
  match e with
  | FileNotFoundError _ | IsADirectoryError _ | PermissionError _ => true
  | _ => false
  end.

(** [open(path, 'r')]: a new file object under an unused descriptor. *)
Definition open_ (path : string) : M nat :=
  fun w =>
    match fs w !! path with
    | None => (Raise (FileNotFoundError path), w)
    | Some Directory => (Raise (IsADirectoryError path), w)
    | Some (Regular f) =>
        if readable f then
          let fd := fresh (dom (fds w)) in
          (Ok fd,
           MkWorld (fs w)
                   (<[fd := Handle (file_lines (text f)) (fault f)]> (fds w))
                   (globals w))
        else (Raise (PermissionError path), w)
    end.

(** [f.close()], also what [f.__exit__] does. *)
Definition close (fd : nat) : M unit :=
  fun w => (Ok tt, MkWorld (fs w) (delete fd (fds w)) (globals w)).

(** [with open(path, 'r') as f: body(f)]. *)
Definition with_open {A} (path : string) (body : nat -> M A) : M A :=
  fd <- open_ path ;; finally (body fd) (close fd).

(** [[g(line) for line in f]] over the lines a file object still holds,
    [c] reads away from a read error ([None]: no error ahead).  The list
    built so far is lost when a read fails; the file object is left where
    the iteration stopped. *)
Fixpoint comprehend (g : str -> str) (lines : list str) (c : option nat)
  : outcome (list str) * handle :=
  match c, lines with
  | Some O, _ => (Raise ReadError, Handle lines c)
  | _, [] => (Ok [], Handle [] c)
  | _, l :: ls =>
      match comprehend g ls (Nat.pred <$> c) with
      | (Ok out, h') => (Ok (g l :: out), h')
      | (Raise e, h') => (Raise e, h')
      end
  end.

Definition comprehension (g : str -> str) (fd : nat) : M (list str) :=
  fun w =>
    match fds w !! fd with
    | None => (Raise ValueError, w)
    | Some h =>
        let '(r, h') := comprehend g (pending h) (countdown h) in
        (r, MkWorld (fs w) (<[fd := h']> (fds w)) (globals w))
    end.

Definition set_global (name : string) (v : value) : M unit :=
  fun w => (Ok tt, MkWorld (fs w) (fds w) (<[name := v]> (globals w))).

Definition get_global (name : string) : M value :=
  fun w => match globals w !! name with
           | Some v => (Ok v, w)
           | None => (Raise (NameError name), w)
           end.

End Py.
Export Py.

(** ** The script *)

Module Setup.

Local Open Scope py_scope.
Local Open Scope string_scope.

(** [def read_requirements()].  The names of the body are taken as they
    resolve where the script calls it: [os] is the module imported on the
    first line and [open] the builtin (see [names_resolve]); their lookup
    is not a step of the model. *)
Definition read_requirements : M (list str) :=
  let reqs_path := path_join "." "requirements.txt" in
  requirements <-
    with_open reqs_path (fun f => comprehension rstrip f) ;;
  ret requirements.

(** The world holds a readable [./requirements.txt] of content [t] whose
    reads do not fail. *)
Definition serves (w : World) (t : str) : Prop :=
  fs w !! "./requirements.txt" = Some (Regular (File t true None)).

(** The keyword arguments of the call of [setup]. *)
Record setup_kwargs : Type := SetupKwargs {
  name : string;
  version : string;
  description : string;
  author : string;
  author_email : string;
  license : string;
  install_requires : list str;
  url : string;
  package_dir : gmap string string;
  packages : list string;
  entry_points : gmap string value
}.

Section Module_body.

(** [setuptools.find_packages(where=...)]: the packages found under a
    directory of the file system. *)
Variable find_packages : gmap string node -> string -> list string.

(** The module from its first line to the call of [setup]: the imports,
    the [def], [console_scripts = []], then the keyword arguments in the
    order they are written. *)
Definition module_body : M setup_kwargs :=
  set_global "os" (VModule "os") ;;;
  set_global "find_packages" (VFunction "setuptools.find_packages") ;;;
  set_global "setup" (VFunction "setuptools.setup") ;;;
  set_global "read_requirements" (VFunction "read_requirements") ;;;
  set_global "console_scripts" (VList []) ;;;
  requirements <- read_requirements ;;
  found <- (fun w => (Ok (find_packages (fs w) "src"), w)) ;;
  console_scripts <- get_global "console_scripts" ;;
  ret {| name := "attacksplitnn";
         version := "0.0.0";
         description := "Attacking SplitNN";
         author := "Koukyosyumei";
         author_email := "koukyosyumei@hotmail.com";
         license := "MIT";
         install_requires := requirements;
         url := "https://github.com/Koukyosyumei/Attack_SplitNN";
         package_dir := {[ "" := "src" ]};
         packages := found;
         entry_points := {[ "console_scripts" := console_scripts ]} |}.

End Module_body.

End Setup.
Export Setup.

(** ** What the specification says a line becomes *)

Module Spec.

(** The line with only its trailing line terminator removed. *)
Definition strip_terminator (line : str) : str :=
  match rev line with
  | c :: r => if c =? LF then rev r else line
  | [] => []
  end.

End Spec.

(** ** Worlds used in the examples *)

Module Examples.

Local Open Scope string_scope.

(** A world whose only file is [./requirements.txt] with content [t]. *)
Definition world_with (t : str) (k : option nat) : World :=
  MkWorld {[ "./requirements.txt" := Regular (File t true k) ]} ∅ ∅.

Definition empty_world : World := MkWorld ∅ ∅ ∅.

Definition scenario : str :=
  codes "numpy==1.21.0" ++ [LF] ++ codes "torch>=1.9" ++ [LF] ++ [LF]
  ++ codes "scikit-learn" ++ [LF].

(** ["numpy \n"]: a requirement followed by a space. *)
Definition spaced : str := codes "numpy " ++ [LF].

(** ["  \n"]: a line of two spaces. *)
Definition two_spaces : str := [SPACE; SPACE; LF].

(** ["numpy\n \t\n"]: a requirement, then a line of a space and a tab. *)
Definition with_blank_line : str := codes "numpy" ++ [LF; SPACE; TAB; LF].

(** ["torch \t\r\n"]: a requirement, a space and a tab, ended by CR LF. *)
Definition crlf_line : str := codes "torch " ++ [TAB; CR; LF].

End Examples.

(** ** Views of a text used to state what the reader keeps *)

Module Views.

(** The characters of a text that are not whitespace, in order. *)
Definition visible (s : str) : str :=
  List.filter (fun c => negb (isspace c)) s.

(** The same text written with CR LF line endings. *)
Definition to_crlf (s : str) : str :=
  List.flat_map (fun c => if c =? LF then [CR; LF] else [c]) s.

(** A file whose reads fail after [k] lines, at [./requirements.txt]. *)
Definition faulty (w : World) (t : str) (k : nat) : Prop :=
  fs w !! "./requirements.txt"%string = Some (Regular (File t true (Some k))).

(** The line terminators of a raw text: a line feed, a carriage return, or
    a carriage return and a line feed counted once. *)
Fixpoint line_breaks (s : str) : nat :=
  match s with
  | [] => 0%nat
  | c :: s' =>
      if c =? CR then
        S (match s' with
           | d :: s'' => if d =? LF then line_breaks s'' else line_breaks s'
           | [] => 0%nat
           end)
      else if c =? LF then S (line_breaks s')
      else line_breaks s'
  end.

(** A raw text that ends in the middle of a line: its last character is
    neither a line feed nor a carriage return. *)
Definition open_ended (s : str) : bool :=
  match last s with
  | Some c => negb (c =? LF) && negb (c =? CR)
  | None => false
  end.

(** The names the body of [read_requirements] uses resolve as in the
    script: [os] is bound to the module and no global hides the builtin
    [open]. *)
Definition names_resolve (w : World) : Prop :=
  globals w !! "os"%string = Some (VModule "os")
  /\ globals w !! "open"%string = None.

(** A world after [import os] that serves the scenario, already holds a
    file open, has other files, and has [version] and [console_scripts]
    bound by earlier code. *)
Definition busy_world : World :=
  MkWorld
    (<["./requirements.txt"%string :=
         Regular (File Examples.scenario true None)]>
       {[ "src"%string := Directory ]})
    {[ 0%nat := Handle [Examples.spaced] None ]}
    (<["os"%string := VModule "os"]>
       (<["version"%string := VList ["0.0.0"%string]]>
          {[ "console_scripts"%string := VList ["old = m:f"%string] ]})).

(** The same world where the read after the third line fails. *)
Definition busy_faulty_world : World :=
  MkWorld
    (<["./requirements.txt"%string :=
         Regular (File Examples.scenario true (Some 3%nat))]>
       {[ "src"%string := Directory ]})
    (fds busy_world) (globals busy_world).

(** The same world without the requirements file. *)
Definition busy_missing_world : World :=
  MkWorld {[ "src"%string := Directory ]}
          (fds busy_world) (globals busy_world).

End Views.
Export Views.

(** ** Facts on [rstrip] and on the lines of a file *)

Section Text_facts.

Implicit Types (s r ws line : str) (c : N).

Lemma isspace_LF : isspace LF = true.
Proof. reflexivity. Qed.

(** What [drop_spaces] removes is a run of whitespace. *)
Lemma drop_spaces_split s :
  exists ws, s = ws ++ drop_spaces s /\ blank ws.
Proof.
  induction s as [|c s [ws [E B]]]; simpl.
  - exists []. split; [reflexivity | constructor].
  - destruct (isspace c) eqn:Hc.
    + exists (c :: ws). split; [simpl; congruence | by constructor].
    + exists []. split; [reflexivity | constructor].
Qed.

Lemma drop_spaces_head s c r :
  drop_spaces s = c :: r -> isspace c = false.
Proof.
  induction s as [|d s IH]; simpl; [discriminate |].
  destruct (isspace d) eqn:Hd; [exact IH |].
  intros [= -> _]. exact Hd.
Qed.

Lemma drop_spaces_blank s : blank s -> drop_spaces s = [].
Proof.
  induction 1 as [|c s Hc _ IH]; simpl; [reflexivity |].
  by rewrite Hc.
Qed.

Lemma drop_spaces_app_blank ws s :
  blank ws -> drop_spaces (ws ++ s) = drop_spaces s.
Proof.
  induction 1 as [|c ws Hc _ IH]; simpl; [reflexivity |].
  by rewrite Hc.
Qed.

Lemma drop_spaces_nonspace c s :
  isspace c = false -> drop_spaces (c :: s) = c :: s.
Proof. intros Hc. simpl. by rewrite Hc. Qed.

Lemma blank_rev ws : blank ws -> blank (rev ws).
Proof.
  unfold blank. rewrite !List.Forall_forall. intros H c Hin.
  apply H. by apply List.in_rev.
Qed.

(** [rstrip] keeps a prefix and removes a run of whitespace. *)
Lemma rstrip_split s :
  exists ws, s = rstrip s ++ ws /\ blank ws.
Proof.
  destruct (drop_spaces_split (rev s)) as [ws [E B]].
  exists (rev ws). split; [| by apply blank_rev].
  unfold rstrip. rewrite <- List.rev_app_distr, <- E.
  by rewrite List.rev_involutive.
Qed.

(** What [rstrip] returns does not end in whitespace. *)
Lemma rstrip_last s r c : rstrip s = r ++ [c] -> isspace c = false.
Proof.
  unfold rstrip. intros E.
  apply (f_equal (@rev N)) in E.
  rewrite List.rev_involutive, List.rev_app_distr in E. simpl in E.
  by apply drop_spaces_head in E.
Qed.

Lemma rstrip_blank s : blank s -> rstrip s = [].
Proof.
  intros B. unfold rstrip.
  by rewrite (drop_spaces_blank _ (blank_rev _ B)).
Qed.

Lemma rstrip_app_blank s ws : blank ws -> rstrip (s ++ ws) = rstrip s.
Proof.
  intros B. unfold rstrip. rewrite List.rev_app_distr.
  by rewrite (drop_spaces_app_blank _ _ (blank_rev _ B)).
Qed.

Lemma rstrip_snoc_nonspace s c :
  isspace c = false -> rstrip (s ++ [c]) = s ++ [c].
Proof.
  intros Hc. unfold rstrip. rewrite List.rev_app_distr. simpl.
  rewrite Hc. simpl. by rewrite List.rev_involutive.
Qed.

(** [rstrip] is the only way to cut a run of whitespace off the end and
    be left with something that does not end in whitespace. *)
Lemma rstrip_unique s r ws :
  s = r ++ ws -> blank ws ->
  (forall r' c, r = r' ++ [c] -> isspace c = false) ->
  rstrip s = r.
Proof.
  intros -> B Hr. rewrite rstrip_app_blank by done.
  induction r as [|c r' _] using List.rev_ind.
  - reflexivity.
  - apply rstrip_snoc_nonspace. by eapply Hr.
Qed.

Lemma strip_terminator_split line :
  exists ws, line = Spec.strip_terminator line ++ ws /\ blank ws.
Proof.
  unfold Spec.strip_terminator.
  destruct (rev line) as [|c r] eqn:E.
  - apply (f_equal (@rev N)) in E. rewrite List.rev_involutive in E.
    subst. exists []. split; [reflexivity | constructor].
  - destruct (c =? LF) eqn:Hc.
    + apply N.eqb_eq in Hc. subst c.
      apply (f_equal (@rev N)) in E. rewrite List.rev_involutive in E.
      simpl in E. exists [LF]. split; [exact E |].
      constructor; [reflexivity | constructor].
    + exists []. split; [by rewrite List.app_nil_r | constructor].
Qed.

(** The code strips at least the terminator: stripping the terminator
    first changes nothing. *)
Lemma rstrip_strip_terminator line :
  rstrip (Spec.strip_terminator line) = rstrip line.
Proof.
  destruct (strip_terminator_split line) as [ws [E B]].
  rewrite E at 2. by rewrite rstrip_app_blank.
Qed.

End Text_facts.

Section Lines_facts.

Implicit Types (s line : str) (c : N).

(** The lines of a text, put end to end, are the text. *)
Lemma concat_readlines s : concat (readlines s) = s.
Proof.
  induction s as [|c s IH]; simpl; [reflexivity |].
  destruct (c =? LF).
  - simpl. by rewrite IH.
  - destruct (readlines s) as [|l ls]; simpl in *; by rewrite <- IH.
Qed.

Lemma readlines_nil s : readlines s = [] -> s = [].
Proof.
  intros E. rewrite <- (concat_readlines s). by rewrite E.
Qed.

(** No line is empty: a blank line is the line [[LF]]. *)
Lemma readlines_nonempty s : Forall (fun line => line <> []) (readlines s).
Proof.
  induction s as [|c s IH]; simpl; [constructor |].
  destruct (c =? LF); [by constructor |].
  destruct (readlines s) as [|l ls]; [by repeat constructor |].
  inversion IH; subst. by constructor.
Qed.

Lemma unterminated_cons c d s :
  unterminated (c :: d :: s) = unterminated (d :: s).
Proof. reflexivity. Qed.

(** The number of lines: one for each LF, and one more for an unfinished
    last line. *)
Lemma length_readlines s :
  length (readlines s) =
  (count_occ N.eq_dec s LF + (if unterminated s then 1 else 0))%nat.
Proof.
  induction s as [|c s IH]; [reflexivity |].
  cbn [readlines count_occ].
  destruct (c =? LF) eqn:Hc.
  - apply N.eqb_eq in Hc. subst c.
    destruct (N.eq_dec LF LF) as [_|]; [| done].
    cbn [length]. rewrite IH.
    destruct s as [|d s]; [reflexivity |].
    by rewrite unterminated_cons.
  - apply N.eqb_neq in Hc.
    destruct (N.eq_dec c LF) as [|_]; [done |].
    destruct s as [|d s].
    + cbn. unfold unterminated. cbn.
      apply N.eqb_neq in Hc. by rewrite Hc.
    + rewrite unterminated_cons, <- IH.
      destruct (readlines (d :: s)) as [|l ls] eqn:E; [| reflexivity].
      by apply readlines_nil in E.
Qed.

End Lines_facts.

(** ** Running the reader *)

Section Reader_facts.

Local Open Scope string_scope.

Lemma comprehend_no_fault g (ls : list str) :
  comprehend g ls None = (Ok (List.map g ls), Handle [] None).
Proof.
  induction ls as [|l ls IH]; [reflexivity |].
  cbn. by rewrite IH.
Qed.

Lemma comprehend_fault_late g (ls : list str) (k : nat) :
  (length ls < k)%nat ->
  fst (comprehend g ls (Some k)) = Ok (List.map g ls).
Proof.
  revert k. induction ls as [|l ls IH]; intros [|k] Hk;
    cbn in *; try lia; [reflexivity |].
  specialize (IH k ltac:(lia)).
  destruct (comprehend g ls (Some k)) as [[out|e] h']; cbn in *;
    congruence.
Qed.

Lemma comprehend_fault g (ls : list str) (k : nat) :
  (k <= length ls)%nat ->
  fst (comprehend g ls (Some k)) = Raise ReadError.
Proof.
  revert k. induction ls as [|l ls IH]; intros [|k] Hk;
    cbn in *; try lia; try reflexivity.
  specialize (IH k ltac:(lia)).
  destruct (comprehend g ls (Some k)) as [[out|e] h']; cbn in *;
    congruence.
Qed.

(** The reader in one step: the outcome is decided by what lies at
    [./requirements.txt], and the world is left as it was found. *)
Lemma read_requirements_run (w : World) :
  read_requirements w =
  match fs w !! "./requirements.txt" with
  | None => (Raise (FileNotFoundError "./requirements.txt"), w)
  | Some Directory => (Raise (IsADirectoryError "./requirements.txt"), w)
  | Some (Regular f) =>
      if readable f
      then (fst (comprehend rstrip (file_lines (text f)) (fault f)), w)
      else (Raise (PermissionError "./requirements.txt"), w)
  end.
Proof.
  destruct w as [files handles globs].
  unfold read_requirements, with_open, bind, finally, open_.
  change (path_join "." "requirements.txt") with "./requirements.txt".
  cbn [fs fds globals].
  destruct (files !! "./requirements.txt") as [[f|]|]; try reflexivity.
  destruct (readable f); [| reflexivity].
  unfold comprehension, close, ret. cbn [fs fds globals].
  rewrite lookup_insert_eq. cbn [pending countdown].
  destruct (comprehend rstrip (file_lines (text f)) (fault f))
    as [[out|e] h']; cbn [fst fs fds globals];
    rewrite insert_insert_eq, delete_insert_id;
    try reflexivity;
    apply not_elem_of_dom, is_fresh.
Qed.

End Reader_facts.

Section Reader_outcomes.

Local Open Scope string_scope.

Lemma comprehend_Ok g (ls : list str) c out :
  fst (comprehend g ls c) = Ok out -> out = List.map g ls.
Proof.
  revert c out. induction ls as [|l ls IH]; intros [[|k]|] out;
    cbn; try discriminate; try (by intros [= <-]).
  - specialize (IH (Some k)).
    destruct (comprehend g ls (Some k)) as [[o|e] h']; cbn in *;
      [| discriminate].
    intros [= <-]. by rewrite (IH o).
  - specialize (IH None).
    destruct (comprehend g ls None) as [[o|e] h']; cbn in *;
      [| discriminate].
    intros [= <-]. by rewrite (IH o).
Qed.

(** A file that is served is read to its end. *)
Lemma read_requirements_serves w t :
  serves w t ->
  read_requirements w = (Ok (List.map rstrip (file_lines t)), w).
Proof.
  intros H. rewrite read_requirements_run. unfold serves in H.
  rewrite H. cbn. by rewrite comprehend_no_fault.
Qed.

(** Whatever the reader returns is the lines of the file, each through
    [rstrip]. *)
Lemma read_requirements_Ok w out :
  fst (read_requirements w) = Ok out ->
  exists f, fs w !! "./requirements.txt" = Some (Regular f)
            /\ out = List.map rstrip (file_lines (text f)).
Proof.
  rewrite read_requirements_run.
  destruct (fs w !! "./requirements.txt") as [[f|]|]; try discriminate.
  destruct (readable f); [| discriminate]. cbn.
  intros H. exists f. split; [reflexivity |].
  by apply comprehend_Ok in H.
Qed.

Lemma serves_world_with t : serves (Examples.world_with t None) t.
Proof. reflexivity. Qed.

End Reader_outcomes.

(** ** The properties of the specification *)

Section Claims.

Local Open Scope string_scope.
Import Examples.

(** C1, as the specification words it, fails: on the file ["numpy \n"]
    the reader returns ["numpy"], while the line with only its terminator
    removed is ["numpy "]: the trailing space is stripped too. *)
Lemma read_requirements_strips_trailing_space :
  let t := spaced in
  serves (world_with t None) t
  /\ file_lines t = [spaced]
  /\ List.map Spec.strip_terminator (file_lines t) = [codes "numpy "]
  /\ fst (read_requirements (world_with t None)) = Ok [codes "numpy"]
  /\ fst (read_requirements (world_with t None))
     <> Ok (List.map Spec.strip_terminator (file_lines t)).
Proof.
  cbv zeta. repeat split; try reflexivity.
  vm_compute. discriminate.
Qed.

(** C1, amended: for every line of the input file the reader returns the
    line through [rstrip]: the line without its terminator and without
    the run of whitespace (spaces, tabs, ...) before the terminator.
    Nothing but whitespace is removed and only at the end (no comment
    stripping), no line is dropped (no blank-line filtering), the result
    does not end in whitespace, and it is the line without its terminator
    exactly when that does not end in whitespace. *)
Theorem read_requirements_rstrips_each_line (w : World) (t : str) :
  serves w t ->
  exists out,
    read_requirements w = (Ok out, w)
    /\ length out = length (file_lines t)
    /\ forall (i : nat) (line : str),
         file_lines t !! i = Some line ->
         out !! i = Some (rstrip line)
         /\ (exists ws, blank ws
                        /\ Spec.strip_terminator line = (rstrip line ++ ws)%list)
         /\ ends_clean (rstrip line)
         /\ (ends_clean (Spec.strip_terminator line) <->
             rstrip line = Spec.strip_terminator line).
Proof.
  intros H. exists (List.map rstrip (file_lines t)).
  split; [by apply read_requirements_serves |].
  split; [by rewrite List.length_map |].
  intros i line Hi.
  assert (Hclean : ends_clean (rstrip line)).
  { destruct (rstrip line) as [|c r] eqn:E using List.rev_ind;
      [by left | right].
    exists r, c. split; [reflexivity |]. by eapply rstrip_last. }
  split; [| split; [| split; [exact Hclean |]]].
  - change (List.map rstrip (file_lines t)) with (rstrip <$> file_lines t).
    by rewrite list_lookup_fmap, Hi.
  - destruct (rstrip_split (Spec.strip_terminator line)) as [ws [E B]].
    exists ws. split; [exact B |].
    by rewrite <- rstrip_strip_terminator.
  - split.
    + intros [E | [r [c [E Hc]]]]; rewrite <- rstrip_strip_terminator, E.
      * reflexivity.
      * by apply rstrip_snoc_nonspace.
    + intros <-. exact Hclean.
Qed.

Lemma read_requirements_rstrips_each_line_witness :
  serves (world_with scenario None) scenario
  /\ exists out,
       read_requirements (world_with scenario None)
       = (Ok out, world_with scenario None)
       /\ length out = length (file_lines scenario)
       /\ forall (i : nat) (line : str),
            file_lines scenario !! i = Some line ->
            out !! i = Some (rstrip line)
            /\ (exists ws, blank ws
                           /\ Spec.strip_terminator line = (rstrip line ++ ws)%list)
            /\ ends_clean (rstrip line)
            /\ (ends_clean (Spec.strip_terminator line) <->
                rstrip line = Spec.strip_terminator line).
Proof.
  split; [reflexivity |].
  apply (read_requirements_rstrips_each_line
           (world_with scenario None) scenario).
  reflexivity.
Defined.

(** C2, as the specification words it, fails: on the file ["  \n"] (two
    spaces and the terminator) the reader returns the empty string, not
    the two spaces. *)
Lemma read_requirements_empties_blank_line :
  let t := two_spaces in
  serves (world_with t None) t
  /\ file_lines t = [[SPACE; SPACE; LF]]
  /\ fst (read_requirements (world_with t None)) = Ok [[]]
  /\ fst (read_requirements (world_with t None)) <> Ok [[SPACE; SPACE]].
Proof.
  cbv zeta. repeat split; try reflexivity.
  vm_compute. discriminate.
Qed.

(** C2, amended: for a line that is whitespace followed by the line
    terminator, the element the reader returns is the empty string: the
    whitespace goes with the terminator. *)
Theorem read_requirements_blank_line_empty
    (w : World) (t : str) (i : nat) (ws : str) :
  serves w t ->
  file_lines t !! i = Some (ws ++ [LF])%list ->
  blank ws ->
  exists out, read_requirements w = (Ok out, w) /\ out !! i = Some [].
Proof.
  intros H Hi B. exists (List.map rstrip (file_lines t)).
  split; [by apply read_requirements_serves |].
  change (List.map rstrip (file_lines t)) with (rstrip <$> file_lines t).
  rewrite list_lookup_fmap, Hi. cbn. f_equal.
  apply rstrip_blank. unfold blank in *.
  apply Forall_app. split; [exact B |].
  constructor; [reflexivity | constructor].
Qed.

Lemma read_requirements_blank_line_empty_witness :
  let t := with_blank_line in
  serves (world_with t None) t
  /\ file_lines t !! 1%nat = Some ([SPACE; TAB] ++ [LF])%list
  /\ blank [SPACE; TAB]
  /\ exists out,
       read_requirements (world_with t None) = (Ok out, world_with t None)
       /\ out !! 1%nat = Some [].
Proof.
  cbv zeta.
  assert (B : blank [SPACE; TAB]) by (repeat constructor).
  split; [reflexivity |]. split; [reflexivity |]. split; [exact B |].
  apply (read_requirements_blank_line_empty
           (world_with with_blank_line None) with_blank_line
           1%nat [SPACE; TAB]);
    [reflexivity | reflexivity | exact B].
Defined.

(** C4: when [./requirements.txt] does not exist or cannot be opened,
    the reader raises the file-access error that [open] raised, as it is;
    no list, empty or partial, is returned, and the world is untouched. *)
Theorem read_requirements_open_error (w : World) (e : exn) :
  fst (open_ "./requirements.txt" w) = Raise e ->
  read_requirements w = (Raise e, w)
  /\ os_error e = true
  /\ (forall out, fst (read_requirements w) <> Ok out)
  /\ e = match fs w !! "./requirements.txt" with
         | None => FileNotFoundError "./requirements.txt"
         | Some Directory => IsADirectoryError "./requirements.txt"
         | Some (Regular _) => PermissionError "./requirements.txt"
         end.
Proof.
  intros H. rewrite read_requirements_run. unfold open_ in H.
  destruct (fs w !! "./requirements.txt") as [[f|]|];
    [destruct (readable f) |..]; cbn in H; try discriminate;
    injection H as <-; repeat split; try reflexivity;
    intros out; discriminate.
Qed.

Lemma read_requirements_open_error_witness :
  fst (open_ "./requirements.txt" empty_world)
  = Raise (FileNotFoundError "./requirements.txt")
  /\ read_requirements empty_world
     = (Raise (FileNotFoundError "./requirements.txt"), empty_world).
Proof.
  split; [reflexivity |].
  apply (read_requirements_open_error empty_world
           (FileNotFoundError "./requirements.txt")).
  reflexivity.
Defined.

(** C5: on the file ["numpy==1.21.0\ntorch>=1.9\n\nscikit-learn\n"] the
    reader returns ["numpy==1.21.0"], ["torch>=1.9"], the empty string
    and ["scikit-learn"], in this order. *)
Theorem read_requirements_scenario (w : World) :
  serves w scenario ->
  read_requirements w =
  (Ok [codes "numpy==1.21.0"; codes "torch>=1.9"; [];
       codes "scikit-learn"], w).
Proof.
  intros H. by rewrite (read_requirements_serves w scenario H).
Qed.

Lemma read_requirements_scenario_witness :
  serves (world_with scenario None) scenario
  /\ read_requirements (world_with scenario None) =
     (Ok [codes "numpy==1.21.0"; codes "torch>=1.9"; [];
          codes "scikit-learn"], world_with scenario None).
Proof.
  split; [reflexivity |].
  apply (read_requirements_scenario (world_with scenario None)).
  reflexivity.
Defined.

(** C6: on an empty file (no byte, no line) the reader returns the empty
    list. *)
Theorem read_requirements_empty_file (w : World) :
  serves w [] -> read_requirements w = (Ok [], w).
Proof.
  intros H. by rewrite (read_requirements_serves w [] H).
Qed.

Lemma read_requirements_empty_file_witness :
  serves (world_with [] None) []
  /\ read_requirements (world_with [] None) = (Ok [], world_with [] None).
Proof.
  split; [reflexivity |].
  apply (read_requirements_empty_file (world_with [] None)).
  reflexivity.
Defined.

(** The way out by an error in the middle of the file: the second read
    of the scenario fails, the reader raises, and the world is as before. *)
Example read_requirements_read_error :
  read_requirements (world_with scenario (Some 2%nat))
  = (Raise ReadError, world_with scenario (Some 2%nat)).
Proof.
  rewrite read_requirements_run. reflexivity.
Qed.

(** C7: the file object opened for [./requirements.txt] is released on
    every way out of the reader, the normal return and an error raised
    in the middle of reading alike: the table of open files is afterwards
    what it was before, and the descriptor that [open] handed out, open
    while the body runs, is no longer in it. *)
Theorem read_requirements_releases_handle (w : World) :
  fds (snd (read_requirements w)) = fds w
  /\ forall (fd : nat) (w1 : World),
       open_ "./requirements.txt" w = (Ok fd, w1) ->
       is_Some (fds w1 !! fd)
       /\ fds (snd (read_requirements w)) !! fd = None.
Proof.
  assert (E : snd (read_requirements w) = w).
  { rewrite read_requirements_run.
    destruct (fs w !! "./requirements.txt") as [[f|]|]; try reflexivity.
    by destruct (readable f). }
  rewrite E. split; [reflexivity |].
  intros fd w1. unfold open_.
  destruct (fs w !! "./requirements.txt") as [[f|]|]; try discriminate.
  destruct (readable f); [| discriminate].
  intros [= <- <-]. cbn [fds]. split.
  - rewrite lookup_insert_eq. by eexists.
  - apply not_elem_of_dom, is_fresh.
Qed.

Lemma read_requirements_releases_handle_witness :
  let w := world_with scenario (Some 2%nat) in
  fst (read_requirements w) = Raise ReadError
  /\ exists (fd : nat) (w1 : World),
       open_ "./requirements.txt" w = (Ok fd, w1)
       /\ is_Some (fds w1 !! fd)
       /\ fds (snd (read_requirements w)) !! fd = None
       /\ fds (snd (read_requirements w)) = fds w.
Proof.
  cbv zeta. split; [by rewrite read_requirements_read_error |].
  destruct (read_requirements_releases_handle
              (world_with scenario (Some 2%nat))) as [Hsame Hfd].
  edestruct Hfd as [Hopen Hclosed]; [reflexivity |].
  eexists _, _. split; [reflexivity |].
  split; [exact Hopen |]. split; [exact Hclosed | exact Hsame].
Defined.

(** C8: the reader has no effect that outlasts it: the globals of the
    module, the file system and the table of open files are after the
    call what they were before it. *)
Theorem read_requirements_no_side_effect (w : World) :
  globals (snd (read_requirements w)) = globals w
  /\ fs (snd (read_requirements w)) = fs w
  /\ snd (read_requirements w) = w.
Proof.
  assert (E : snd (read_requirements w) = w).
  { rewrite read_requirements_run.
    destruct (fs w !! "./requirements.txt") as [[f|]|]; try reflexivity.
    by destruct (readable f). }
  by rewrite E.
Qed.

(** C9: the keyword arguments handed to [setup] hold, under
    [entry_points], the one group [console_scripts] and its list is
    empty: no command is declared.  The module reaches the call unless
    the reader raises, and then with the reader's exception. *)
Theorem setup_console_scripts_empty
    (find_packages : gmap string node -> string -> list string)
    (w : World) :
  match fst (module_body find_packages w) with
  | Ok kw =>
      entry_points kw = {[ "console_scripts" := VList [] ]}
      /\ (forall (group : string) (v : value),
            entry_points kw !! group = Some v -> v = VList [])
      /\ fst (read_requirements w) = Ok (install_requires kw)
  | Raise e => fst (read_requirements w) = Raise e
  end.
Proof.
  unfold module_body, bind, set_global, get_global, ret.
  cbn [fs fds globals].
  rewrite !read_requirements_run. cbn [fs fds globals].
  destruct (fs w !! "./requirements.txt") as [[f|]|]; try reflexivity.
  destruct (readable f); [| reflexivity]. cbn [fst].
  destruct (comprehend rstrip (file_lines (text f)) (fault f))
    as [[out|e] h']; cbn [fst fs fds globals]; [| reflexivity].
  rewrite lookup_insert_eq. cbn [fst entry_points install_requires].
  split; [reflexivity |]. split; [| reflexivity].
  intros group v Hv.
  apply lookup_singleton_Some in Hv. by destruct Hv as [_ <-].
Qed.

Lemma setup_console_scripts_empty_witness :
  exists kw,
    fst (module_body (fun _ _ => []) (world_with scenario None)) = Ok kw
    /\ entry_points kw = {[ "console_scripts" := VList [] ]}.
Proof.
  pose proof (setup_console_scripts_empty
                (fun _ _ => []) (world_with scenario None)) as H.
  destruct (fst (module_body (fun _ _ => []) (world_with scenario None)))
    as [kw|e].
  - exists kw. split; [reflexivity | apply H].
  - exfalso. vm_compute in H. discriminate H.
Defined.

(** C10: every string the reader returns is empty or ends in a character
    that is not whitespace: no space, tab, carriage return or line feed,
    nor any other whitespace, is left at the end of an element. *)
Theorem read_requirements_no_trailing_whitespace
    (w : World) (out : list str) (s : str) :
  fst (read_requirements w) = Ok out ->
  s ∈ out ->
  ends_clean s
  /\ forall (r : str) (c : N),
       s = (r ++ [c])%list ->
       isspace c = false
       /\ c <> SPACE /\ c <> TAB /\ c <> CR /\ c <> LF.
Proof.
  intros H Hs.
  destruct (read_requirements_Ok w out H) as [f [_ ->]].
  apply list_elem_of_In, List.in_map_iff in Hs.
  destruct Hs as [line [<- _]].
  assert (Hlast : forall r c, rstrip line = (r ++ [c])%list ->
                              isspace c = false)
    by (intros r c; apply rstrip_last).
  split.
  - destruct (rstrip line) as [|c r _] using List.rev_ind;
      [by left | right].
    exists r, c. split; [reflexivity |]. by eapply Hlast.
  - intros r c E. pose proof (Hlast r c E) as Hc.
    repeat split; [exact Hc |..]; intros ->; discriminate.
Qed.

Lemma read_requirements_no_trailing_whitespace_witness :
  fst (read_requirements (world_with crlf_line None)) = Ok [codes "torch"]
  /\ codes "torch" ∈ [codes "torch"]
  /\ ends_clean (codes "torch").
Proof.
  assert (Hin : codes "torch" ∈ [codes "torch"]) by apply list_elem_of_here.
  split; [reflexivity |]. split; [exact Hin |].
  apply (read_requirements_no_trailing_whitespace
           (world_with crlf_line None) [codes "torch"] (codes "torch"));
    [reflexivity | exact Hin].
Defined.

End Claims.

(** ** Further properties of the reader: errors and independence *)

Section Reader_errors.

Local Open Scope string_scope.
Import Examples.

(** X1: when a read fails before the end of the file, the reader raises
    the read error: the strings built from the lines already read are not
    returned, and the world is left as it was. *)
Theorem read_requirements_read_fails (w : World) (t : str) (k : nat) :
  faulty w t k ->
  (k <= length (file_lines t))%nat ->
  read_requirements w = (Raise ReadError, w)
  /\ forall out, fst (read_requirements w) <> Ok out.
Proof.
  intros H Hk. rewrite read_requirements_run.
  unfold faulty in H. rewrite H. cbn [readable text fault].
  rewrite (comprehend_fault rstrip (file_lines t) k Hk).
  split; [reflexivity |]. intros out. discriminate.
Qed.

Lemma read_requirements_read_fails_witness :
  faulty (world_with scenario (Some 3%nat)) scenario 3
  /\ (3 <= length (file_lines scenario))%nat
  /\ read_requirements (world_with scenario (Some 3%nat))
     = (Raise ReadError, world_with scenario (Some 3%nat)).
Proof.
  assert (Hk : (3 <= length (file_lines scenario))%nat) by (vm_compute; lia).
  split; [reflexivity |]. split; [exact Hk |].
  apply (read_requirements_read_fails
           (world_with scenario (Some 3%nat)) scenario 3);
    [reflexivity | exact Hk].
Defined.



(** X7: called where its names resolve as in the script, the reader lets
    out two kinds of exception only: the file-access error that [open]
    raised, and the error of a read that failed within the file it opened.
    It never fails for reading a file that is closed. *)
Theorem read_requirements_exceptions (w : World) (e : exn) :
  names_resolve w ->
  fst (read_requirements w) = Raise e ->
  (os_error e = true /\ fst (open_ "./requirements.txt" w) = Raise e)
  \/ (e = ReadError
      /\ exists f k, fs w !! "./requirements.txt" = Some (Regular f)
                     /\ readable f = true
                     /\ fault f = Some k
                     /\ (k <= length (file_lines (text f)))%nat).
Proof.
  intros _. rewrite read_requirements_run. unfold open_.
  destruct (fs w !! "./requirements.txt") as [[f|]|] eqn:Hf.
  - destruct (readable f) eqn:Hr.
    + cbn [fst]. intros H. right.
      destruct (fault f) as [k|] eqn:Hk.
      * destruct (Nat.le_gt_cases k (length (file_lines (text f))))
          as [Hle|Hgt].
        -- rewrite comprehend_fault in H by exact Hle.
           injection H as <-. split; [reflexivity |]. by exists f, k.
        -- rewrite comprehend_fault_late in H by exact Hgt. discriminate.
      * rewrite comprehend_no_fault in H. discriminate.
    + intros [= <-]. by left.
  - intros [= <-]. by left.
  - intros [= <-]. by left.
Qed.

Lemma read_requirements_exceptions_witness :
  (names_resolve busy_missing_world
   /\ fst (read_requirements busy_missing_world)
      = Raise (FileNotFoundError "./requirements.txt")
   /\ os_error (FileNotFoundError "./requirements.txt") = true
   /\ fst (open_ "./requirements.txt" busy_missing_world)
      = Raise (FileNotFoundError "./requirements.txt"))
  /\ (names_resolve busy_faulty_world
      /\ fst (read_requirements busy_faulty_world) = Raise ReadError
      /\ exists f k,
           fs busy_faulty_world !! "./requirements.txt" = Some (Regular f)
           /\ readable f = true
           /\ fault f = Some k
           /\ (k <= length (file_lines (text f)))%nat).
Proof.
  assert (Hm : names_resolve busy_missing_world) by (split; reflexivity).
  assert (Hf : names_resolve busy_faulty_world) by (split; reflexivity).
  split.
  - split; [exact Hm |]. split; [reflexivity |].
    destruct (read_requirements_exceptions busy_missing_world
                (FileNotFoundError "./requirements.txt") Hm eq_refl)
      as [[H1 H2] | [H _]]; [| discriminate H].
    split; [exact H1 | exact H2].
  - split; [exact Hf |].
    assert (Hr : fst (read_requirements busy_faulty_world) = Raise ReadError)
      by (rewrite read_requirements_run; reflexivity).
    split; [exact Hr |].
    destruct (read_requirements_exceptions busy_faulty_world
                ReadError Hf Hr)
      as [[H _] | [_ H]]; [discriminate H | exact H].
Defined.

End Reader_errors.

(** ** Further properties of the reader: what the output keeps *)

Section Reader_content.

Local Open Scope string_scope.
Import Examples.

Implicit Types (s t u line : str) (c : N).

Lemma visible_app s u : visible (s ++ u)%list = (visible s ++ visible u)%list.
Proof. apply List.filter_app. Qed.

Lemma visible_blank ws : blank ws -> visible ws = [].
Proof.
  induction 1 as [|c ws Hc _ IH]; [reflexivity |].
  cbn. by rewrite Hc.
Qed.

Lemma visible_rstrip s : visible (rstrip s) = visible s.
Proof.
  destruct (rstrip_split s) as [ws [E B]].
  rewrite E at 2. rewrite visible_app, (visible_blank ws B).
  by rewrite List.app_nil_r.
Qed.

Lemma visible_concat_rstrip (ls : list str) :
  visible (concat (List.map rstrip ls)) = visible (concat ls).
Proof.
  induction ls as [|l ls IH]; [reflexivity |].
  cbn. by rewrite !visible_app, visible_rstrip, IH.
Qed.

(** The translation of line endings only exchanges whitespace. *)
Lemma visible_translate_newlines_upto (n : nat) t :
  (length t <= n)%nat -> visible (translate_newlines t) = visible t.
Proof.
  revert t. induction n as [|n IH]; intros [|c t] Hn; cbn in Hn;
    try reflexivity; try lia.
  cbn [translate_newlines].
  destruct (c =? CR)%N eqn:Hc.
  - apply N.eqb_eq in Hc. subst c.
    change (visible (CR :: t)) with (visible t).
    destruct t as [|d t]; [reflexivity |].
    destruct (d =? LF)%N eqn:Hd.
    + apply N.eqb_eq in Hd. subst d.
      change (visible (LF :: t)) with (visible t).
      change (visible (LF :: translate_newlines t))
        with (visible (translate_newlines t)).
      apply IH. cbn in Hn. lia.
    + change (visible (LF :: translate_newlines (d :: t)))
        with (visible (translate_newlines (d :: t))).
      apply IH. lia.
  - unfold visible. cbn [List.filter].
    fold (visible (translate_newlines t)). fold (visible t).
    rewrite IH by lia. reflexivity.
Qed.

Lemma visible_translate_newlines t :
  visible (translate_newlines t) = visible t.
Proof. by apply (visible_translate_newlines_upto (length t)). Qed.

(** X2: the reader loses nothing but whitespace: the characters of the
    returned strings that are not whitespace are, in the same order, those
    of the file.  Comments, markers and blank-looking lines are not
    filtered. *)
Theorem read_requirements_keeps_visible (w : World) (out : list str) :
  fst (read_requirements w) = Ok out ->
  exists f,
    fs w !! "./requirements.txt" = Some (Regular f)
    /\ visible (concat out) = visible (text f).
Proof.
  intros H. destruct (read_requirements_Ok w out H) as [f [Hf ->]].
  exists f. split; [exact Hf |].
  rewrite visible_concat_rstrip. unfold file_lines.
  by rewrite concat_readlines, visible_translate_newlines.
Qed.

Lemma read_requirements_keeps_visible_witness :
  fst (read_requirements (world_with crlf_line None)) = Ok [codes "torch"]
  /\ exists f,
       fs (world_with crlf_line None) !! "./requirements.txt"
       = Some (Regular f)
       /\ visible (concat [codes "torch"]) = visible (text f).
Proof.
  split; [reflexivity |].
  apply (read_requirements_keeps_visible (world_with crlf_line None)).
  reflexivity.
Defined.

Lemma blank_LF : blank [LF].
Proof. constructor; [reflexivity | constructor]. Qed.

Lemma translate_newlines_id t :
  ~ In CR t -> translate_newlines t = t.
Proof.
  induction t as [|c t IH]; [reflexivity |].
  intros H. cbn [translate_newlines].
  destruct (c =? CR)%N eqn:Hc.
  - apply N.eqb_eq in Hc. subst c. exfalso. apply H. by left.
  - rewrite IH; [reflexivity |]. intros Hin. apply H. by right.
Qed.

Lemma translate_newlines_to_crlf t :
  ~ In CR t -> translate_newlines (to_crlf t) = t.
Proof.
  induction t as [|c t IH]; [reflexivity |].
  intros H.
  assert (Ht : ~ In CR t) by (intros Hin; apply H; by right).
  assert (Hc : (c =? CR)%N = false).
  { apply N.eqb_neq. intros ->. apply H. by left. }
  change (to_crlf (c :: t))
    with ((if (c =? LF)%N then [CR; LF] else [c]) ++ to_crlf t)%list.
  destruct (c =? LF)%N eqn:Hl.
  - apply N.eqb_eq in Hl. subst c. cbn. by rewrite (IH Ht).
  - cbn. rewrite Hc. by rewrite (IH Ht).
Qed.

(** X4: a file written with CR LF line endings is read as the same file
    written with LF line endings: for a text without carriage return the
    reader returns the same list for both. *)
Theorem read_requirements_crlf (w1 w2 : World) (t : str) :
  ~ In CR t ->
  serves w1 t ->
  serves w2 (to_crlf t) ->
  fst (read_requirements w1) = fst (read_requirements w2)
  /\ fst (read_requirements w2) = Ok (List.map rstrip (readlines t)).
Proof.
  intros Hcr H1 H2.
  rewrite (read_requirements_serves w1 t H1).
  rewrite (read_requirements_serves w2 (to_crlf t) H2).
  unfold file_lines.
  by rewrite translate_newlines_to_crlf, translate_newlines_id.
Qed.

Lemma read_requirements_crlf_witness :
  ~ In CR scenario
  /\ serves (world_with scenario None) scenario
  /\ serves (world_with (to_crlf scenario) None) (to_crlf scenario)
  /\ fst (read_requirements (world_with scenario None))
     = fst (read_requirements (world_with (to_crlf scenario) None)).
Proof.
  assert (Hcr : ~ In CR scenario).
  { vm_compute. intros H.
    repeat (destruct H as [H|H]; [discriminate H |]). exact H. }
  split; [exact Hcr |]. split; [reflexivity |]. split; [reflexivity |].
  apply (read_requirements_crlf
           (world_with scenario None)
           (world_with (to_crlf scenario) None) scenario);
    [exact Hcr | reflexivity | reflexivity].
Defined.

Lemma translate_newlines_no_CR_upto (n : nat) t :
  (length t <= n)%nat -> ~ In CR (translate_newlines t).
Proof.
  revert t. induction n as [|n IH]; intros [|c t] Hn; cbn in Hn;
    try (intros []); try lia.
  cbn [translate_newlines].
  destruct (c =? CR)%N eqn:Hc.
  - intros [Habs | Hin]; [discriminate Habs |].
    destruct t as [|d t]; [destruct Hin |].
    destruct (d =? LF)%N.
    + revert Hin. apply IH. cbn in Hn. lia.
    + revert Hin. apply IH. lia.
  - apply N.eqb_neq in Hc.
    intros [Heq | Hin]; [by apply Hc |].
    revert Hin. apply IH. lia.
Qed.

(** A line is a run without line feed, then a line feed or the end. *)
Lemma readlines_line_shape s line :
  In line (readlines s) ->
  exists body, ~ In LF body /\ (line = (body ++ [LF])%list \/ line = body).
Proof.
  revert line. induction s as [|c s IH]; intros line; [intros [] |].
  cbn [readlines]. destruct (c =? LF)%N eqn:Hc.
  - apply N.eqb_eq in Hc. subst c. intros [<- | Hin]; [| by apply IH].
    exists []. split; [intros [] | by left].
  - apply N.eqb_neq in Hc.
    destruct (readlines s) as [|l ls].
    + intros [<- | []]. exists [c]. split; [| by right].
      intros [Heq | []]. by apply Hc.
    + intros [<- | Hin]; [| apply IH; by right].
      destruct (IH l (or_introl eq_refl)) as [body [Hb Hl]].
      exists (c :: body). split.
      * intros [Heq | Hin]; [by apply Hc | by apply Hb].
      * destruct Hl as [-> | ->]; [by left | by right].
Qed.

(** X5: no returned string holds a line feed or a carriage return: every
    element is a single line. *)
Theorem read_requirements_single_lines
    (w : World) (out : list str) (s : str) :
  fst (read_requirements w) = Ok out ->
  In s out ->
  ~ In LF s /\ ~ In CR s.
Proof.
  intros H Hs. destruct (read_requirements_Ok w out H) as [f [_ ->]].
  apply List.in_map_iff in Hs. destruct Hs as [line [<- Hline]].
  unfold file_lines in Hline. split.
  - destruct (readlines_line_shape _ _ Hline) as [body [Hb Hl]].
    assert (E : rstrip line = rstrip body).
    { destruct Hl as [-> | ->]; [| reflexivity].
      apply rstrip_app_blank, blank_LF. }
    rewrite E. destruct (rstrip_split body) as [ws [Eb _]].
    intros Hin. apply Hb. rewrite Eb. apply List.in_or_app. by left.
  - destruct (rstrip_split line) as [ws [El _]].
    intros Hin.
    apply (translate_newlines_no_CR_upto (length (text f)) (text f));
      [lia |].
    rewrite <- (concat_readlines (translate_newlines (text f))).
    apply List.in_concat. exists line. split; [exact Hline |].
    rewrite El. apply List.in_or_app. by left.
Qed.

Lemma read_requirements_single_lines_witness :
  fst (read_requirements (world_with crlf_line None)) = Ok [codes "torch"]
  /\ In (codes "torch") [codes "torch"]
  /\ ~ In LF (codes "torch") /\ ~ In CR (codes "torch").
Proof.
  assert (Hin : In (codes "torch") [codes "torch"]) by (left; reflexivity).
  split; [reflexivity |]. split; [exact Hin |].
  apply (read_requirements_single_lines
           (world_with crlf_line None) [codes "torch"] (codes "torch"));
    [reflexivity | exact Hin].
Defined.

Lemma unterminated_cons_true c u :
  unterminated u = true -> unterminated (c :: u) = true.
Proof.
  destruct u as [|d u]; [discriminate |].
  by rewrite unterminated_cons.
Qed.

Lemma unterminated_tail c d u :
  unterminated (c :: d :: u) = true -> unterminated (d :: u) = true.
Proof. by rewrite unterminated_cons. Qed.

(** A line feed put after an unfinished last line ends that line and
    starts no other. *)
Lemma readlines_snoc_LF u :
  unterminated u = true ->
  exists ls l, readlines u = (ls ++ [l])%list
               /\ readlines (u ++ [LF]) = (ls ++ [l ++ [LF]])%list.
Proof.
  induction u as [|c u IH]; [discriminate |].
  destruct u as [|d u].
  - unfold unterminated. cbn. intros Hc.
    apply negb_true_iff in Hc. rewrite Hc.
    by exists [], [c].
  - intros Hu. apply unterminated_tail in Hu.
    destruct (IH Hu) as [ls [l [E1 E2]]].
    change ((c :: d :: u) ++ [LF])%list with (c :: ((d :: u) ++ [LF]))%list.
    cbn [readlines] in *. destruct (c =? LF)%N.
    + exists ([c] :: ls), l. by rewrite E1, E2.
    + rewrite E1, E2. destruct ls as [|l0 ls]; cbn.
      * by exists [], (c :: l).
      * by exists ((c :: l0) :: ls), l.
Qed.

Lemma translate_newlines_cons c s :
  translate_newlines (c :: s) =
  if (c =? CR)%N then
    LF :: match s with
          | d :: s'' => if (d =? LF)%N then translate_newlines s''
                        else translate_newlines s
          | [] => []
          end
  else c :: translate_newlines s.
Proof. reflexivity. Qed.

(** The same on the raw text: the line feed is absorbed by a carriage
    return before it, or else comes out as it is. *)
Lemma translate_newlines_snoc_LF_upto (n : nat) t :
  (length t <= n)%nat ->
  unterminated t = true ->
  translate_newlines (t ++ [LF]) = translate_newlines t
  \/ (translate_newlines (t ++ [LF]) = (translate_newlines t ++ [LF])%list
      /\ unterminated (translate_newlines t) = true).
Proof.
  revert t. induction n as [|n IH]; intros [|c t] Hn Hu; cbn in Hn;
    try discriminate; try lia.
  destruct t as [|d t].
  - unfold unterminated in Hu. cbn in Hu. apply negb_true_iff in Hu.
    cbn. destruct (c =? CR)%N; [by left | right].
    split; [reflexivity |]. unfold unterminated. cbn. by rewrite Hu.
  - apply unterminated_tail in Hu.
    change ((c :: d :: t) ++ [LF])%list with (c :: ((d :: t) ++ [LF]))%list.
    rewrite (translate_newlines_cons c ((d :: t) ++ [LF])).
    rewrite (translate_newlines_cons c (d :: t)).
    destruct (c =? CR)%N.
    + change ((d :: t) ++ [LF])%list with (d :: (t ++ [LF]))%list.
      cbv iota. destruct (d =? LF)%N eqn:Hd.
      * apply N.eqb_eq in Hd. subst d.
        destruct t as [|e t]; [discriminate |].
        apply unterminated_tail in Hu.
        destruct (IH (e :: t) ltac:(cbn in *; lia) Hu) as [E | [E U]].
        -- left. by rewrite E.
        -- right. rewrite E. split; [reflexivity |].
           by apply unterminated_cons_true.
      * change (d :: (t ++ [LF]))%list with ((d :: t) ++ [LF])%list.
        destruct (IH (d :: t) ltac:(cbn in *; lia) Hu) as [E | [E U]].
        -- left. by rewrite E.
        -- right. rewrite E. split; [reflexivity |].
           by apply unterminated_cons_true.
    + destruct (IH (d :: t) ltac:(cbn in *; lia) Hu) as [E | [E U]].
      * left. by rewrite E.
      * right. rewrite E. split; [reflexivity |].
        by apply unterminated_cons_true.
Qed.

(** X3: the line terminator of the last line is optional: when the file
    does not end in a line feed, the reader returns the same list as for
    the file with a line feed added at its end. *)
Theorem read_requirements_final_newline (w1 w2 : World) (t : str) :
  unterminated t = true ->
  serves w1 t ->
  serves w2 (t ++ [LF]) ->
  fst (read_requirements w1) = fst (read_requirements w2).
Proof.
  intros Hu H1 H2.
  rewrite (read_requirements_serves w1 t H1).
  rewrite (read_requirements_serves w2 _ H2).
  cbn [fst]. f_equal. unfold file_lines.
  destruct (translate_newlines_snoc_LF_upto (length t) t (le_n _) Hu)
    as [E | [E U]]; rewrite E; [reflexivity |].
  destruct (readlines_snoc_LF _ U) as [ls [l [E1 E2]]].
  rewrite E1, E2, !List.map_app. cbn [List.map].
  by rewrite (rstrip_app_blank l [LF] blank_LF).
Qed.

Lemma read_requirements_final_newline_witness :
  let t := (codes "numpy" ++ [LF] ++ codes "torch")%list in
  unterminated t = true
  /\ serves (world_with t None) t
  /\ serves (world_with (t ++ [LF]) None) (t ++ [LF])
  /\ fst (read_requirements (world_with t None))
     = fst (read_requirements (world_with (t ++ [LF]) None))
  /\ fst (read_requirements (world_with t None))
     = Ok [codes "numpy"; codes "torch"].
Proof.
  cbv zeta.
  split; [reflexivity |]. split; [reflexivity |]. split; [reflexivity |].
  split; [| reflexivity].
  apply (read_requirements_final_newline
           (world_with (codes "numpy" ++ [LF] ++ codes "torch") None)
           (world_with ((codes "numpy" ++ [LF] ++ codes "torch") ++ [LF])
              None)
           (codes "numpy" ++ [LF] ++ codes "torch"));
    reflexivity.
Defined.

End Reader_content.

(** ** Further properties of the module *)

Section Module_facts.

Local Open Scope string_scope.
Import Examples.

Variable find_packages : gmap string node -> string -> list string.



End Module_facts.

Section Module_witnesses.

Local Open Scope string_scope.
Import Examples.



End Module_witnesses.

(** ** The number of lines *)

Section Line_count.

Local Open Scope string_scope.
Import Examples.

Implicit Types (s t u : str) (c : N).

Lemma translate_newlines_nil t : translate_newlines t = [] -> t = [].
Proof.
  destruct t as [|c t]; [reflexivity |].
  rewrite translate_newlines_cons. by destruct (c =? CR)%N.
Qed.

Lemma unterminated_skip c u : u <> [] -> unterminated (c :: u) = unterminated u.
Proof. destruct u as [|d u]; [done |]. intros _. apply unterminated_cons. Qed.

Lemma open_ended_skip c u : u <> [] -> open_ended (c :: u) = open_ended u.
Proof. by destruct u as [|d u]. Qed.

(** The line feeds of the translated text are the terminators of the raw
    text. *)
Lemma count_translate_newlines_upto (n : nat) t :
  (length t <= n)%nat ->
  count_occ N.eq_dec (translate_newlines t) LF = line_breaks t.
Proof.
  revert t. induction n as [|n IH]; intros [|c t] Hn; cbn in Hn;
    try reflexivity; try lia.
  rewrite translate_newlines_cons. cbn [line_breaks].
  destruct (c =? CR)%N eqn:Hc.
  - rewrite count_occ_cons_eq by reflexivity. f_equal.
    destruct t as [|d t]; [reflexivity |].
    destruct (d =? LF)%N; apply IH; cbn in *; lia.
  - destruct (c =? LF)%N eqn:Hl.
    + apply N.eqb_eq in Hl. subst c.
      rewrite count_occ_cons_eq by reflexivity. f_equal. apply IH. lia.
    + apply N.eqb_neq in Hl.
      rewrite count_occ_cons_neq by exact Hl. apply IH. lia.
Qed.

(** The translated text ends in the middle of a line exactly when the raw
    text does. *)
Lemma unterminated_translate_newlines_upto (n : nat) t :
  (length t <= n)%nat ->
  unterminated (translate_newlines t) = open_ended t.
Proof.
  revert t. induction n as [|n IH]; intros [|c t] Hn; cbn in Hn;
    try reflexivity; try lia.
  destruct t as [|d t].
  - cbn. unfold unterminated, open_ended. cbn.
    destruct (c =? CR)%N eqn:Hc.
    + apply N.eqb_eq in Hc. by subst c.
    + cbn. by rewrite andb_true_r.
  - rewrite (open_ended_skip c (d :: t)) by done.
    rewrite translate_newlines_cons.
    assert (Hne : translate_newlines (d :: t) <> [])
      by (intros E; by apply translate_newlines_nil in E).
    destruct (c =? CR)%N.
    + destruct (d =? LF)%N eqn:Hd.
      * apply N.eqb_eq in Hd. subst d.
        destruct t as [|e t]; [reflexivity |].
        rewrite (open_ended_skip LF (e :: t)) by done.
        rewrite unterminated_skip
          by (intros E; by apply translate_newlines_nil in E).
        apply IH. cbn in *. lia.
      * rewrite unterminated_skip by exact Hne. apply IH. cbn in *. lia.
    + rewrite unterminated_skip by exact Hne. apply IH. cbn in *. lia.
Qed.

(** C3: for a dependency file of N lines the reader returns exactly N
    strings, the i-th made from the i-th line, and a blank line (a lone
    terminator) becomes the empty string.  On the content of the file, N
    is its number of line terminators (a line feed, a carriage return, or
    the two together), plus one when the content ends in the middle of a
    line; for a content without carriage return that is its number of line
    feeds, plus one when it does not end in one, and the lines put end to
    end are the content.  The characters of the strings that are not
    whitespace are, in order, those of the content. *)
Theorem read_requirements_one_per_line (w : World) (t : str) :
  serves w t ->
  exists out,
    read_requirements w = (Ok out, w)
    /\ length out = length (file_lines t)
    /\ length out =
       (count_occ N.eq_dec (translate_newlines t) LF
        + (if unterminated (translate_newlines t) then 1 else 0))%nat
    /\ (forall (i : nat) (line : str),
          file_lines t !! i = Some line -> out !! i = Some (rstrip line))
    /\ (forall i : nat,
          file_lines t !! i = Some [LF] -> out !! i = Some [])
    /\ length out
       = (line_breaks t + (if open_ended t then 1 else 0))%nat
    /\ (~ In CR t ->
        concat (file_lines t) = t
        /\ length out =
           (count_occ N.eq_dec t LF
            + (if unterminated t then 1 else 0))%nat)
    /\ visible (concat out) = visible t.
Proof.
  intros H. exists (List.map rstrip (file_lines t)).
  split; [by apply read_requirements_serves |].
  rewrite List.length_map.
  split; [reflexivity |].
  split; [apply length_readlines |].
  split; [| split; [| split; [| split]]].
  - intros i line Hi.
    change (List.map rstrip (file_lines t)) with (rstrip <$> file_lines t).
    by rewrite list_lookup_fmap, Hi.
  - intros i Hi.
    change (List.map rstrip (file_lines t)) with (rstrip <$> file_lines t).
    by rewrite list_lookup_fmap, Hi.
  - unfold file_lines. rewrite length_readlines.
    rewrite (count_translate_newlines_upto (length t) t (le_n _)).
    by rewrite (unterminated_translate_newlines_upto (length t) t (le_n _)).
  - intros Hcr. unfold file_lines.
    rewrite (translate_newlines_id t Hcr).
    split; [apply concat_readlines | apply length_readlines].
  - rewrite visible_concat_rstrip. unfold file_lines.
    by rewrite concat_readlines, visible_translate_newlines.
Qed.

Lemma read_requirements_one_per_line_witness :
  serves (world_with scenario None) scenario
  /\ ~ In CR scenario
  /\ line_breaks scenario = 4%nat
  /\ open_ended scenario = false
  /\ count_occ N.eq_dec scenario LF = 4%nat
  /\ file_lines scenario !! 2%nat = Some [LF]
  /\ exists out,
       read_requirements (world_with scenario None)
       = (Ok out, world_with scenario None)
       /\ length out = 4%nat
       /\ out !! 2%nat = Some []
       /\ out = [codes "numpy==1.21.0"; codes "torch>=1.9"; [];
                 codes "scikit-learn"].
Proof.
  assert (Hcr : ~ In CR scenario).
  { vm_compute. intros H.
    repeat (destruct H as [H|H]; [discriminate H |]). exact H. }
  split; [reflexivity |]. split; [exact Hcr |].
  split; [reflexivity |]. split; [reflexivity |].
  split; [reflexivity |]. split; [reflexivity |].
  destruct (read_requirements_one_per_line
              (world_with scenario None) scenario eq_refl)
    as [out [Hrun [_ [_ [Hnth [Hblank [Hraw _]]]]]]].
  exists out. split; [exact Hrun |].
  assert (Hlen : length out = 4%nat) by (rewrite Hraw; reflexivity).
  split; [exact Hlen |].
  split; [exact (Hblank 2%nat eq_refl) |].
  pose proof (Hnth 0%nat _ eq_refl) as H0.
  pose proof (Hnth 1%nat _ eq_refl) as H1.
  pose proof (Hnth 2%nat _ eq_refl) as H2.
  pose proof (Hnth 3%nat _ eq_refl) as H3.
  destruct out as [|a [|b [|c [|d [|e out]]]]]; try discriminate Hlen.
  vm_compute in H0, H1, H2, H3.
  injection H0 as ->. injection H1 as ->.
  injection H2 as ->. injection H3 as ->.
  reflexivity.
Defined.

End Line_count.
